(** * Ingredient comparison of the recipe tutorial

    A shallow embedding of [compareIngredients]
    (client/src/utils/compareIngredients.js) and the properties of the
    ingredient matcher.

    {v
    function compareIngredients(recipe1, recipe2) {
      const commonIngredients = recipe1.ingredients.filter((ingredient) =>
        recipe2.ingredients.some((ing) => ing.name === ingredient.name)
      );
      console.log("Common ingredients:", commonIngredients); // Test point
      return commonIngredients;
    }
    v}

    The development has two layers.  The first one works on values: an
    ingredient is the record of its fields, a recipe the (possibly absent)
    list of its ingredients, and the function runs in a small monad that
    carries the console and may throw.  The second one ([Module Store])
    places the same objects in a store of references, so that aliasing and
    the absence of writes can be stated; the array it returns holds
    references to the values the first layer returns.

    The other scripts of the tutorial follow: the check of the environment
    at the start of the server ([Module Server]), the script that adds rows
    to the recipe form ([Module Form]) and the two components that show
    recipes ([Module Client]). *)

From Stdlib Require Import Ascii.
From stdpp Require Import base option list strings gmap pretty.

Local Open Scope string_scope.
Local Open Scope list_scope.

(** ** Data *)

(** An ingredient object [{ name, amount, unit }].  Every field may be
    missing, in which case reading it yields [undefined] ([None]).  The
    comparison reads [name] only; amounts are carried along and never
    computed with, so whole numbers stand for them. *)
Record Ingredient : Type := mkIngredient {
  name : option string;
  amount : option Z;
  unit : option string
}.

#[global] Instance Ingredient_eq_dec : EqDecision Ingredient.
Proof. solve_decision. Defined.

(** A recipe object, of which only the [ingredients] property is read.
    [None] is a recipe object without that property. *)
Record Recipe : Type := mkRecipe {
  ingredients : option (list Ingredient)
}.

(** The object literal [{ name: n }]. *)
Definition named (n : string) : Ingredient :=
  {| name := Some n; amount := None; unit := None |}.

(** The object literal [{ ingredients: l }]. *)
Definition recipeOf (l : list Ingredient) : Recipe :=
  {| ingredients := Some l |}.

(** ** Effects: console output and exceptions *)

Inductive JsError : Type :=
| TypeError.

Inductive JsResult (A : Type) : Type :=
| Ok (a : A)
| Throw (e : JsError).
Arguments Ok {A} a.
Arguments Throw {A} e.

(** One call of [console.log(label, value)]. *)
Record LogEntry : Type := mkLog {
  log_label : string;
  log_value : list Ingredient
}.

Definition Console : Type := list LogEntry.

(** Computations that extend the console and may throw; what was printed
    before an exception stays printed. *)
Definition Js (A : Type) : Type := Console → JsResult A * Console.

Definition ret {A} (a : A) : Js A := λ c, (Ok a, c).

Definition throw {A} (e : JsError) : Js A := λ c, (Throw e, c).

Definition bind {A B} (m : Js A) (k : A → Js B) : Js B :=
  λ c, match m c with
       | (Ok a, c') => k a c'
       | (Throw e, c') => (Throw e, c')
       end.

Declare Scope js_scope.
Delimit Scope js_scope with js.
Notation "'let*' x ':=' m 'in' k" := (bind m (λ x, k))
  (at level 10, x name, m at level 100, k at level 200) : js_scope.
Local Open Scope js_scope.

(** [console.log(label, value)] appends one entry. *)
Definition console_log (label : string) (value : list Ingredient) : Js () :=
  λ c, (Ok (), c ++ [mkLog label value]).

(** ** The JavaScript operations used by the function *)

(** Calling a method on the value of a property: [o.p.m(...)] throws a
    [TypeError] when [o.p] is [undefined]. *)
Definition receiver {A} (v : option A) : Js A :=
  match v with
  | Some a => ret a
  | None => throw TypeError
  end.

(** [a === b] on values that are a string or [undefined]: two strings are
    compared character by character, [undefined] is equal to itself only. *)
Definition strict_eq (a b : option string) : bool :=
  match a, b with
  | Some s, Some t => String.eqb s t
  | None, None => true
  | _, _ => false
  end.

(** [Array.prototype.some]: stops at the first element the callback
    accepts. *)
Fixpoint array_some {A} (p : A → bool) (l : list A) : bool :=
  match l with
  | [] => false
  | x :: xs => if p x then true else array_some p xs
  end.

(** [Array.prototype.filter]: calls the callback on every element from left
    to right and keeps, in a new array, the elements it accepts; an
    exception of the callback ends the call. *)
Fixpoint array_filter {A} (p : A → Js bool) (l : list A) : Js (list A) :=
  match l with
  | [] => ret []
  | x :: xs =>
      let* keep := p x in
      let* rest := array_filter p xs in
      ret (if keep then x :: rest else rest)
  end.

(** ** The function *)

Definition compareIngredients (recipe1 recipe2 : Recipe)
  : Js (list Ingredient) :=
  let* ingredients1 := receiver (ingredients recipe1) in
  let* commonIngredients :=
    array_filter
      (λ ingredient,
         let* ingredients2 := receiver (ingredients recipe2) in
         ret (array_some (λ ing, strict_eq (name ing) (name ingredient))
                         ingredients2))
      ingredients1 in
  let* _ := console_log "Common ingredients:" commonIngredients in
  ret commonIngredients.

(** The console after a call that returned [out]. *)
Definition logged (c : Console) (out : list Ingredient) : Console :=
  c ++ [mkLog "Common ingredients:" out].

(** The ingredients of [la] whose name is the name of an ingredient of
    [lb], in the order of [la]: the closed form of the value returned on two
    recipes that carry an ingredient list (lemma [compareIngredients_lists]). *)
Definition common (la lb : list Ingredient) : list Ingredient :=
  filter (λ x, name x ∈ name <$> lb) la.

(** How many times the entry [x] occurs in the list [l]. *)
Definition copies (x : Ingredient) (l : list Ingredient) : nat :=
  count_occ Ingredient_eq_dec l x.

(** ** The same function over a store of references

    Objects live in a store and are named by references; an array holds
    references to its elements.  A reference is an index into the store,
    and an allocation extends the store at its end.  This layer shows which
    objects the function reads, that it writes none, and which references
    its result holds. *)

Module Store.

Definition ref : Type := nat.

Inductive Obj : Type :=
| IngredientObj (fields : Ingredient)
| ArrayObj (elems : list ref)
| RecipeObj (ingredients : option ref).

Definition Heap : Type := list Obj.

(** [console.log(label, value)] receives the array by reference. *)
Record LogEntry : Type := mkLog {
  log_label : string;
  log_value : ref
}.

Record State : Type := mkState {
  heap : Heap;
  console : list LogEntry
}.

(** A computation returns a value or throws, and leaves a state; [None]
    is a store with a reference to no object, which no JavaScript program
    can build. *)
Definition Js (A : Type) : Type := State → option (JsResult A * State).

Definition ret {A} (a : A) : Js A := λ s, Some (Ok a, s).

Definition throw {A} (e : JsError) : Js A := λ s, Some (Throw e, s).

Definition bind {A B} (m : Js A) (k : A → Js B) : Js B :=
  λ s, match m s with
       | Some (Ok a, s') => k a s'
       | Some (Throw e, s') => Some (Throw e, s')
       | None => None
       end.

Declare Scope store_scope.
Notation "'let*' x ':=' m 'in' k" := (bind m (λ x, k))
  (at level 10, x name, m at level 100, k at level 200) : store_scope.
Local Open Scope store_scope.

Definition read (r : ref) : Js Obj :=
  λ s, match heap s !! r with
       | Some o => Some (Ok o, s)
       | None => None
       end.

(** A new object is placed after the existing ones. *)
Definition alloc (o : Obj) : Js ref :=
  λ s, Some (Ok (length (heap s)),
             {| heap := heap s ++ [o]; console := console s |}).

Definition console_log (label : string) (value : ref) : Js () :=
  λ s, Some (Ok (), {| heap := heap s;
                       console := console s ++ [mkLog label value] |}).

(** [o.ingredients]: [undefined] on an object without that property. *)
Definition get_ingredients (o : ref) : Js (option ref) :=
  let* obj := read o in
  match obj with
  | RecipeObj i => ret i
  | _ => ret None
  end.

(** [o.name]: [undefined] on an object without that property. *)
Definition get_name (o : ref) : Js (option string) :=
  let* obj := read o in
  match obj with
  | IngredientObj i => ret (name i)
  | _ => ret None
  end.

(** The receiver of [.filter] and [.some]: a [TypeError] unless the value
    is an array. *)
Definition receiver (v : option ref) : Js (list ref) :=
  match v with
  | None => throw TypeError
  | Some a =>
      let* obj := read a in
      match obj with
      | ArrayObj l => ret l
      | _ => throw TypeError
      end
  end.

Fixpoint array_some (p : ref → Js bool) (l : list ref) : Js bool :=
  match l with
  | [] => ret false
  | x :: xs =>
      let* found := p x in
      if found then ret true else array_some p xs
  end.

Fixpoint filter_elems (p : ref → Js bool) (l : list ref) : Js (list ref) :=
  match l with
  | [] => ret []
  | x :: xs =>
      let* keep := p x in
      let* rest := filter_elems p xs in
      ret (if keep then x :: rest else rest)
  end.

(** [Array.prototype.filter] returns a newly allocated array. *)
Definition array_filter (p : ref → Js bool) (l : list ref) : Js ref :=
  let* kept := filter_elems p l in
  alloc (ArrayObj kept).

Definition compareIngredients (recipe1 recipe2 : ref) : Js ref :=
  let* v1 := get_ingredients recipe1 in
  let* ingredients1 := receiver v1 in
  let* commonIngredients :=
    array_filter
      (λ ingredient,
         let* v2 := get_ingredients recipe2 in
         let* ingredients2 := receiver v2 in
         array_some
           (λ ing,
              let* n := get_name ing in
              let* m := get_name ingredient in
              ret (strict_eq n m))
           ingredients2)
      ingredients1 in
  let* _ := console_log "Common ingredients:" commonIngredients in
  ret commonIngredients.

(** A computation that leaves the state as it found it. *)
Definition reads_only {A} (m : Js A) : Prop :=
  ∀ s res s', m s = Some (res, s') → s' = s.

(** *** Reading values out of the store *)

(** Reference [r] names an ingredient object with fields [i]. *)
Definition is_ingredient (h : Heap) (r : ref) (i : Ingredient) : Prop :=
  h !! r = Some (IngredientObj i).

(** Reference [a] names an array of ingredient objects with fields [l]. *)
Definition is_ingredient_array (h : Heap) (a : ref) (refs : list ref)
    (l : list Ingredient) : Prop :=
  h !! a = Some (ArrayObj refs) ∧ Forall2 (is_ingredient h) refs l.

(** Reference [r] names a recipe object whose [ingredients] property is
    the array [a] with elements [refs], which hold the fields [l]. *)
Definition is_recipe (h : Heap) (r a : ref) (refs : list ref)
    (l : list Ingredient) : Prop :=
  h !! r = Some (RecipeObj (Some a)) ∧ is_ingredient_array h a refs l.

End Store.

(** A store with two recipes: spaghetti and cheese in the first; cheese,
    tomato and eggs in the second.  The two cheese entries are two objects. *)
Definition sample_heap : Store.Heap :=
  [ Store.IngredientObj (named "spaghetti");
    Store.IngredientObj (named "cheese");
    Store.ArrayObj [0; 1];
    Store.RecipeObj (Some 2);
    Store.IngredientObj (named "cheese");
    Store.IngredientObj (named "tomato");
    Store.IngredientObj (named "eggs");
    Store.ArrayObj [4; 5; 6];
    Store.RecipeObj (Some 7) ].

(** ** Start of the server (server.js)

    {v
    dotenv.config();
    const requiredEnv = ["PORT", "MONGODB_URI"];
    requiredEnv.forEach((env) => {
      if (!process.env[env]) {
        console.error(`Error: Missing required environment variable: ${env}`);
        process.exit(1);
      }
    });
    const app = express();
    const PORT = process.env.PORT || 8000;
    v}

    The environment is [process.env] as [dotenv.config()] leaves it: a map
    from names to strings.  The script prints on the error stream and may end
    the process. *)

Module Server.

(** The script goes on with a value, or the process has ended with a code. *)
Inductive Run (A : Type) : Type :=
| Continue (a : A)
| Exit (code : Z).
Arguments Continue {A} a.
Arguments Exit {A} code.

(** A step of the script, on the lines printed by [console.error]. *)
Definition Proc (A : Type) : Type := list string → Run A * list string.

(** A string is truthy unless it is empty; [undefined] is not. *)
Definition truthy (v : option string) : bool :=
  match v with
  | Some s => negb (String.eqb s "")
  | None => false
  end.

Definition console_error (line : string) : Proc () :=
  λ err, (Continue (), err ++ [line]).

(** [process.exit(code)] does not return. *)
Definition process_exit {A} (code : Z) : Proc A :=
  λ err, (Exit code, err).

Definition andThen {A B} (m : Proc A) (k : A → Proc B) : Proc B :=
  λ err, match m err with
         | (Continue a, err') => k a err'
         | (Exit code, err') => (Exit code, err')
         end.

(** [Array.prototype.forEach]. *)
Fixpoint forEach {A} (f : A → Proc ()) (l : list A) : Proc () :=
  match l with
  | [] => λ err, (Continue (), err)
  | x :: xs => andThen (f x) (λ _, forEach f xs)
  end.

Definition requiredEnv : list string := ["PORT"; "MONGODB_URI"].

(** The callback of [forEach]. *)
Definition check (env : gmap string string) (var : string) : Proc () :=
  if negb (truthy (env !! var)) then
    andThen
      (console_error ("Error: Missing required environment variable: " +:+ var))
      (λ _, process_exit 1)
  else
    λ err, (Continue (), err).

(** The value of [process.env.PORT || 8000]: a string of the environment or
    the number. *)
Inductive PortValue : Type :=
| PortString (s : string)
| PortNumber (n : Z).

Definition PORT (env : gmap string string) : PortValue :=
  match env !! "PORT" with
  | Some s => if truthy (Some s) then PortString s else PortNumber 8000
  | None => PortNumber 8000
  end.

(** The script up to the definition of [PORT]. *)
Definition start (env : gmap string string) : Proc PortValue :=
  andThen (forEach (check env) requiredEnv) (λ _ err, (Continue (PORT env), err)).

End Server.

(** ** The script of the recipe form

    {v
    let ingredientCount = 1;
    let instructionCount = 1;
    function addIngredient() {
      const container = document.getElementById("ingredientsContainer");
      const ingredientDiv = document.createElement("div");
      ingredientDiv.className = "ingredient";
      ingredientDiv.innerHTML = `...ingredients[${ingredientCount}][name]...`;
      container.appendChild(ingredientDiv);
      ingredientCount++;
    }
    v}

    and the same for [addInstruction].  The page is the two counters and,
    for every element that has an id, the list of its children. *)

Module Form.

(** An element made by [document.createElement], with the two properties
    the script sets. *)
Record Element : Type := mkElement {
  localName : string;
  className : string;
  innerHTML : string
}.

#[global] Instance Element_eq_dec : EqDecision Element.
Proof. solve_decision. Defined.

Record Page : Type := mkPage {
  ingredientCount : N;
  instructionCount : N;
  children : gmap string (list Element)
}.

(** The counters are whole numbers held in doubles: up to [2^53] adding one
    is exact, and [2^53 + 1] rounds back to [2^53]. *)
Definition max_count : N := 9007199254740992.

Definition increment (n : N) : N :=
  if (n <? max_count)%N then (n + 1)%N else n.

Definition dquote : string := String "034"%char "".
Definition newline : string := String "010"%char "".
Definition quoted (s : string) : string := dquote +:+ s +:+ dquote.

(** The template literal of [addIngredient]; a whole number below [10^21]
    is printed in decimal. *)
Definition ingredient_html (count : N) : string :=
  newline
  +:+ "      <input type=" +:+ quoted "text"
  +:+ " name=" +:+ quoted ("ingredients[" +:+ pretty count +:+ "][name]")
  +:+ " placeholder="
  +:+ quoted ("Ingredient" +:+ newline +:+ newline +:+ " Name")
  +:+ " required />" +:+ newline
  +:+ "      <input type=" +:+ quoted "number"
  +:+ " name=" +:+ quoted ("ingredients[" +:+ pretty count +:+ "][amount]")
  +:+ " placeholder=" +:+ quoted "Amount"
  +:+ " step=" +:+ quoted "any"
  +:+ " required />" +:+ newline
  +:+ "      <input type=" +:+ quoted "text"
  +:+ " name=" +:+ quoted ("ingredients[" +:+ pretty count +:+ "][unit]")
  +:+ " placeholder=" +:+ quoted "Unit (e.g., grams, cups)"
  +:+ " />" +:+ newline
  +:+ "    ".

(** The template literal of [addInstruction]. *)
Definition instruction_html (count : N) : string :=
  newline
  +:+ "      <input type=" +:+ quoted "number"
  +:+ " name="
  +:+ quoted ("analyzedInstructions[" +:+ pretty count +:+ "][stepNumber]")
  +:+ " placeholder=" +:+ quoted "Step Number"
  +:+ " min=" +:+ quoted "1"
  +:+ " required />" +:+ newline
  +:+ "      <textarea name="
  +:+ quoted ("analyzedInstructions[" +:+ pretty count +:+ "][step]")
  +:+ " placeholder=" +:+ quoted "Step Description"
  +:+ " required></textarea>" +:+ newline
  +:+ "    ".

(** [container.appendChild(child)] where [container] is the result of
    [document.getElementById(id)]: a [TypeError] when there is no such
    element, as [container] is [null] then. *)
Definition appendChild (id : string) (child : Element) (p : Page)
  : JsResult () * Page :=
  match children p !! id with
  | None => (Throw TypeError, p)
  | Some l =>
      (Ok (), {| ingredientCount := ingredientCount p;
                 instructionCount := instructionCount p;
                 children := <[id := l ++ [child]]> (children p) |})
  end.

Definition addIngredient (p : Page) : JsResult () * Page :=
  let ingredientDiv :=
    {| localName := "div";
       className := "ingredient";
       innerHTML := ingredient_html (ingredientCount p) |} in
  match appendChild "ingredientsContainer" ingredientDiv p with
  | (Ok _, p') =>
      (Ok (), {| ingredientCount := increment (ingredientCount p');
                 instructionCount := instructionCount p';
                 children := children p' |})
  | (Throw e, p') => (Throw e, p')
  end.

Definition addInstruction (p : Page) : JsResult () * Page :=
  let instructionDiv :=
    {| localName := "div";
       className := "instruction";
       innerHTML := instruction_html (instructionCount p) |} in
  match appendChild "instructionsContainer" instructionDiv p with
  | (Ok _, p') =>
      (Ok (), {| ingredientCount := ingredientCount p';
                 instructionCount := increment (instructionCount p');
                 children := children p' |})
  | (Throw e, p') => (Throw e, p')
  end.

(** The page after [n] clicks on the button that calls [addIngredient]; a
    call that throws ends that click only. *)
Fixpoint addIngredients (n : nat) (p : Page) : Page :=
  match n with
  | O => p
  | S n' => addIngredients n' (addIngredient p).2
  end.

(** The row that [addIngredient] makes at a given value of the counter. *)
Definition ingredient_row (count : N) : Element :=
  {| localName := "div";
     className := "ingredient";
     innerHTML := ingredient_html count |}.

(** The same for the button that calls [addInstruction]. *)
Fixpoint addInstructions (n : nat) (p : Page) : Page :=
  match n with
  | O => p
  | S n' => addInstructions n' (addInstruction p).2
  end.

Definition instruction_row (count : N) : Element :=
  {| localName := "div";
     className := "instruction";
     innerHTML := instruction_html count |}.

End Form.

(** ** The components of the client

    {v
    function RecipeCard({ recipe }) {
      return (
        <div>
          <h3>{recipe.title}</h3>
          <p>{recipe.ingredients.map(ingredient => ingredient.name).join(", ")}</p>
          <img src={recipe.image} alt={recipe.title}
               style={{ width: "200px", height: "auto" }} />
        </div>
      );
    }
    function RecipeList({ recipes }) {
      console.log("Recipes passed to RecipeList:", recipes); // Test point
      return (
        <div>
          {recipes.map((recipe) => (
            <RecipeCard key={recipe._id} recipe={recipe} />
          ))}
        </div>
      );
    }
    v} *)

Module Client.

(** A recipe as the components read it: the properties [_id], [title] and
    [image], each possibly missing, beside the ingredients. *)
Record RecipeDoc : Type := mkDoc {
  _id : option string;
  title : option string;
  image : option string;
  fields : Recipe
}.

(** The value of a property of an element: a string, [undefined], or the
    object given as [style]. *)
Inductive PropValue : Type :=
| PropString (s : option string)
| PropStyle (css : list (string * string)).

(** What a JSX expression evaluates to: an element of the page with its
    properties and children, a text (or [undefined], which shows nothing),
    or a [RecipeCard] element that is still to be rendered. *)
#[warnings="-register-all"]
Inductive ReactElement : Type :=
| Host (tag : string) (props : list (string * PropValue))
       (kids : list ReactElement)
| Text (s : option string)
| RecipeCardElement (key : option string) (recipe : RecipeDoc).

(** [Array.prototype.join]: the elements from left to right, the separator
    before every element but the first; [undefined] counts as the empty
    string. *)
Definition array_join (sep : string) (l : list (option string)) : string :=
  (fold_left
     (λ '(R, k) element,
        ((if (0 <? k)%nat then R +:+ sep else R) +:+ default "" element, S k))
     l ("", 0%nat)).1.

(** [recipe.ingredients.map(ingredient => ingredient.name).join(", ")] *)
Definition ingredientLine (recipe : RecipeDoc) : JsResult string :=
  match ingredients (fields recipe) with
  | None => Throw TypeError
  | Some l => Ok (array_join ", " (name <$> l))
  end.

Definition RecipeCard (recipe : RecipeDoc) : JsResult ReactElement :=
  match ingredientLine recipe with
  | Throw e => Throw e
  | Ok line =>
      Ok (Host "div" []
            [ Host "h3" [] [Text (title recipe)];
              Host "p" [] [Text (Some line)];
              Host "img"
                [ ("src", PropString (image recipe));
                  ("alt", PropString (title recipe));
                  ("style", PropStyle [("width", "200px"); ("height", "auto")]) ]
                [] ])
  end.

(** One call of [console.log(label, recipes)]. *)
Record ListLog : Type := mkListLog {
  list_label : string;
  list_value : option (list RecipeDoc)
}.

Definition RecipeList (recipes : option (list RecipeDoc))
  : list ListLog → JsResult ReactElement * list ListLog :=
  λ c,
    let c' := c ++ [mkListLog "Recipes passed to RecipeList:" recipes] in
    match recipes with
    | None => (Throw TypeError, c')
    | Some l =>
        (Ok (Host "div" []
               ((λ recipe, RecipeCardElement (_id recipe) recipe) <$> l)),
         c')
    end.

(** Rendering calls [RecipeCard] on every [RecipeCard] element of a tree,
    from left to right; an exception of a component ends the rendering. *)
Fixpoint render (e : ReactElement) : JsResult ReactElement :=
  match e with
  | Host tag props kids =>
      match
        (fix render_all (l : list ReactElement)
           : JsResult (list ReactElement) :=
           match l with
           | [] => Ok []
           | k :: ks =>
               match render k with
               | Throw x => Throw x
               | Ok k' =>
                   match render_all ks with
                   | Throw x => Throw x
                   | Ok ks' => Ok (k' :: ks')
                   end
               end
           end) kids
      with
      | Throw x => Throw x
      | Ok kids' => Ok (Host tag props kids')
      end
  | Text s => Ok (Text s)
  | RecipeCardElement _ recipe => RecipeCard recipe
  end.

(** The rendering of the children of an element, as in [render]. *)
Fixpoint render_kids (l : list ReactElement) : JsResult (list ReactElement) :=
  match l with
  | [] => Ok []
  | k :: ks =>
      match render k with
      | Throw x => Throw x
      | Ok k' =>
          match render_kids ks with
          | Throw x => Throw x
          | Ok ks' => Ok (k' :: ks')
          end
      end
  end.

(** The names of a recipe as a card shows them: separated by a comma and a
    space, a missing name as the empty string. *)
Fixpoint shown_names (l : list Ingredient) : string :=
  match l with
  | [] => ""
  | [x] => default "" (name x)
  | x :: rest => default "" (name x) +:+ ", " +:+ shown_names rest
  end.

End Client.

(** ** Basic facts *)

Lemma strict_eq_true (a b : option string) : strict_eq a b = true ↔ a = b.
Proof.
  destruct a as [s|], b as [t|]; simpl; try (split; congruence).
  rewrite String.eqb_eq. split; congruence.
Qed.

Lemma array_some_true {A} (p : A → bool) (l : list A) :
  array_some p l = true ↔ ∃ x, x ∈ l ∧ p x = true.
Proof.
  induction l as [|x xs IH]; simpl.
  - split; [done|]. intros (y & Hy & _). by apply elem_of_nil in Hy.
  - destruct (p x) eqn:Hpx.
    + split; [|done]. intros _. exists x. split; [left|done].
    + rewrite IH. split.
      * intros (y & Hy & Hpy). exists y. split; [by right|done].
      * intros (y & Hy & Hpy). apply elem_of_cons in Hy as [->|Hy].
        -- congruence.
        -- by exists y.
Qed.


(** The callback of [filter], on a second recipe with ingredient list [lb],
    tests whether the name occurs among the names of [lb]. *)
Lemma some_same_name (lb : list Ingredient) (x : Ingredient) :
  array_some (λ ing, strict_eq (name ing) (name x)) lb = true
  ↔ name x ∈ name <$> lb.
Proof.
  rewrite array_some_true, list_elem_of_fmap. split.
  - intros (y & Hy & Heq%strict_eq_true). by exists y.
  - intros (y & Heq & Hy). exists y. split; [done|]. by apply strict_eq_true.
Qed.

(** [filter] with a callback that never throws and leaves the console alone
    is the filter of lists. *)
Lemma array_filter_pure {A} (f : A → Js bool) (P : A → Prop)
    `{!∀ x, Decision (P x)} (l : list A) (c : Console) :
  (∀ x c', x ∈ l → ∃ b, f x c' = (Ok b, c') ∧ (b = true ↔ P x)) →
  array_filter f l c = (Ok (filter P l), c).
Proof.
  induction l as [|x xs IH]; intros Hf; [done|].
  destruct (Hf x c) as (b & Hfx & Hb); [left|].
  simpl. unfold bind at 1. rewrite Hfx.
  unfold bind at 1. rewrite IH by (intros y c' Hy; apply Hf; by right).
  unfold ret. rewrite filter_cons. destruct b.
  - rewrite decide_True by by apply Hb. done.
  - rewrite decide_False; [done|]. intros HP. apply Hb in HP. congruence.
Qed.

(** On two recipes that carry an ingredient list the function returns, and
    prints, the common ingredients. *)
Lemma compareIngredients_lists (la lb : list Ingredient) (c : Console) :
  compareIngredients (recipeOf la) (recipeOf lb) c
  = (Ok (common la lb), logged c (common la lb)).
Proof.
  unfold compareIngredients, recipeOf; simpl.
  unfold bind at 1; simpl. unfold bind at 1.
  rewrite (array_filter_pure _ (λ x, name x ∈ name <$> lb)).
  - done.
  - intros x c' _. eexists. split; [reflexivity|]. apply some_same_name.
Qed.

Lemma elem_of_common (la lb : list Ingredient) (x : Ingredient) :
  x ∈ common la lb ↔ x ∈ la ∧ ∃ y, y ∈ lb ∧ name y = name x.
Proof.
  unfold common. rewrite list_elem_of_filter, list_elem_of_fmap.
  split.
  - intros [(y & Hn & Hy) Hx]. split; [done|]. by exists y.
  - intros [Hx (y & Hy & Hn)]. split; [|done]. by exists y.
Qed.

Lemma copies_filter (P : Ingredient → Prop) `{!∀ x, Decision (P x)}
    (l : list Ingredient) (x : Ingredient) :
  copies x (filter P l) = if decide (P x) then copies x l else 0.
Proof.
  unfold copies. induction l as [|y l IH]; simpl.
  - by destruct (decide (P x)).
  - rewrite filter_cons.
    destruct (decide (P y)) as [Hy|Hy]; simpl;
      destruct (Ingredient_eq_dec y x) as [->|Hne]; rewrite IH;
      destruct (decide (P x)); done.
Qed.

(** ** The function over the store *)

Lemma reads_only_ret {A} (a : A) : Store.reads_only (Store.ret a).
Proof. intros s res s' [= _ <-]. done. Qed.

Lemma reads_only_throw {A} (e : JsError) : Store.reads_only (Store.throw (A:=A) e).
Proof. intros s res s' [= _ <-]. done. Qed.

Lemma reads_only_bind {A B} (m : Store.Js A) (k : A → Store.Js B) :
  Store.reads_only m → (∀ a, Store.reads_only (k a)) → Store.reads_only (Store.bind m k).
Proof.
  intros Hm Hk s res s' H. unfold Store.bind in H.
  destruct (m s) as [[[a|e] s1]|] eqn:Hms; [| |done].
  - apply Hm in Hms as ->. by apply Hk in H.
  - apply Hm in Hms as ->. by injection H as _ <-.
Qed.

Lemma reads_only_read (r : Store.ref) : Store.reads_only (Store.read r).
Proof.
  intros s res s' H. unfold Store.read in H.
  destruct (Store.heap s !! r); [|done]. by injection H as _ <-.
Qed.

Create HintDb store.
#[local] Hint Resolve reads_only_ret reads_only_throw reads_only_read : store.

Lemma reads_only_get_ingredients (o : Store.ref) :
  Store.reads_only (Store.get_ingredients o).
Proof.
  apply reads_only_bind; [auto with store|]. intros []; auto with store.
Qed.

Lemma reads_only_get_name (o : Store.ref) : Store.reads_only (Store.get_name o).
Proof.
  apply reads_only_bind; [auto with store|]. intros []; auto with store.
Qed.

Lemma reads_only_receiver (v : option Store.ref) :
  Store.reads_only (Store.receiver v).
Proof.
  destruct v; simpl; [|auto with store].
  apply reads_only_bind; [auto with store|]. intros []; auto with store.
Qed.

Lemma reads_only_array_some (p : Store.ref → Store.Js bool)
    (l : list Store.ref) :
  (∀ x, Store.reads_only (p x)) → Store.reads_only (Store.array_some p l).
Proof.
  intros Hp. induction l as [|x xs IH]; simpl; [auto with store|].
  apply reads_only_bind; [done|]. intros []; auto with store.
Qed.

Lemma reads_only_filter_elems (p : Store.ref → Store.Js bool)
    (l : list Store.ref) :
  (∀ x, Store.reads_only (p x)) → Store.reads_only (Store.filter_elems p l).
Proof.
  intros Hp. induction l as [|x xs IH]; simpl; [auto with store|].
  apply reads_only_bind; [done|]. intros keep.
  apply reads_only_bind; [done|]. intros rest. auto with store.
Qed.

(** The callback given to [filter] reads the store and nothing else. *)
Lemma reads_only_callback (recipe2 ingredient : Store.ref) :
  Store.reads_only
    (Store.bind (Store.get_ingredients recipe2) (λ v2,
     Store.bind (Store.receiver v2) (λ ingredients2,
     Store.array_some
       (λ ing, Store.bind (Store.get_name ing) (λ n,
               Store.bind (Store.get_name ingredient) (λ m,
               Store.ret (strict_eq n m))))
       ingredients2))).
Proof.
  apply reads_only_bind; [apply reads_only_get_ingredients|]. intros v2.
  apply reads_only_bind; [apply reads_only_receiver|]. intros l2.
  apply reads_only_array_some. intros ing.
  apply reads_only_bind; [apply reads_only_get_name|]. intros n.
  apply reads_only_bind; [apply reads_only_get_name|]. intros m.
  auto with store.
Qed.

(** Whatever the store and the two references are, a call that throws leaves
    the state as it was, and a call that returns has added to the store one
    array and to the console one line, and changed nothing else. *)
Lemma compareIngredients_writes_nothing (recipe1 recipe2 : Store.ref)
    (s s' : Store.State) (res : JsResult Store.ref) :
  Store.compareIngredients recipe1 recipe2 s = Some (res, s') →
  match res with
  | Throw _ => s' = s
  | Ok out =>
      ∃ kept,
        out = length (Store.heap s)
        ∧ Store.heap s' = Store.heap s ++ [Store.ArrayObj kept]
        ∧ Store.console s'
          = Store.console s ++ [Store.mkLog "Common ingredients:" out]
  end.
Proof.
  unfold Store.compareIngredients. intros H.
  unfold Store.bind at 1 in H.
  destruct (Store.get_ingredients recipe1 s) as [[[v1|e] s1]|] eqn:H1;
    [| |done].
  2:{ apply reads_only_get_ingredients in H1 as ->. by injection H as <- <-. }
  apply reads_only_get_ingredients in H1 as ->.
  unfold Store.bind at 1 in H.
  destruct (Store.receiver v1 s) as [[[l1|e] s1]|] eqn:H2; [| |done].
  2:{ apply reads_only_receiver in H2 as ->. by injection H as <- <-. }
  apply reads_only_receiver in H2 as ->.
  unfold Store.bind at 1 in H. unfold Store.array_filter in H.
  unfold Store.bind at 1 in H.
  match type of H with
  | context [Store.filter_elems ?f l1 s] =>
      destruct (Store.filter_elems f l1 s) as [[[kept|e] s1]|] eqn:H3;
      [| |done];
      apply reads_only_filter_elems in H3 as ->;
      try (intros x; apply reads_only_callback)
  end.
  2:{ by injection H as <- <-. }
  simpl in H. injection H as <- <-. exists kept. done.
Qed.

(** *** Recipes held in the store *)

Lemma bind_returns {A B} (m : Store.Js A) (k : A → Store.Js B)
    (s s' : Store.State) (a : A) :
  m s = Some (Ok a, s') → Store.bind m k s = k a s'.
Proof. unfold Store.bind. by intros ->. Qed.

Lemma get_ingredients_recipe (s : Store.State) (r : Store.ref)
    (v : option Store.ref) :
  Store.heap s !! r = Some (Store.RecipeObj v) →
  Store.get_ingredients r s = Some (Ok v, s).
Proof. unfold Store.get_ingredients, Store.bind, Store.read. by intros ->. Qed.

Lemma receiver_array (s : Store.State) (a : Store.ref) (l : list Store.ref) :
  Store.heap s !! a = Some (Store.ArrayObj l) →
  Store.receiver (Some a) s = Some (Ok l, s).
Proof. unfold Store.receiver, Store.bind, Store.read. by intros ->. Qed.

Lemma get_name_ingredient (s : Store.State) (r : Store.ref) (i : Ingredient) :
  Store.is_ingredient (Store.heap s) r i →
  Store.get_name r s = Some (Ok (name i), s).
Proof.
  unfold Store.is_ingredient, Store.get_name, Store.bind, Store.read.
  by intros ->.
Qed.

Lemma array_some_ingredients (s : Store.State) (refs : list Store.ref)
    (lb : list Ingredient) (x : Store.ref) (i : Ingredient) :
  Forall2 (Store.is_ingredient (Store.heap s)) refs lb →
  Store.is_ingredient (Store.heap s) x i →
  Store.array_some
    (λ ing, Store.bind (Store.get_name ing) (λ n,
            Store.bind (Store.get_name x) (λ m,
            Store.ret (strict_eq n m))))
    refs s
  = Some (Ok (array_some (λ ing, strict_eq (name ing) (name i)) lb), s).
Proof.
  intros Hrefs Hx. induction Hrefs as [|r j refs lb Hr _ IH]; [done|].
  simpl. erewrite bind_returns; last first.
  { erewrite bind_returns by by apply get_name_ingredient.
    erewrite bind_returns by by apply get_name_ingredient.
    reflexivity. }
  destruct (strict_eq (name j) (name i)); [done|apply IH].
Qed.

Lemma callback_ingredients (s : Store.State) (recipe2 a2 : Store.ref)
    (refs2 : list Store.ref) (lb : list Ingredient)
    (x : Store.ref) (i : Ingredient) :
  Store.is_recipe (Store.heap s) recipe2 a2 refs2 lb →
  Store.is_ingredient (Store.heap s) x i →
  Store.bind (Store.get_ingredients recipe2) (λ v2,
  Store.bind (Store.receiver v2) (λ ingredients2,
  Store.array_some
    (λ ing, Store.bind (Store.get_name ing) (λ n,
            Store.bind (Store.get_name x) (λ m,
            Store.ret (strict_eq n m))))
    ingredients2)) s
  = Some (Ok (array_some (λ ing, strict_eq (name ing) (name i)) lb), s).
Proof.
  intros (Hr & Ha & Hrefs) Hx.
  erewrite bind_returns by by apply get_ingredients_recipe.
  erewrite bind_returns by by apply receiver_array.
  by apply array_some_ingredients.
Qed.

Lemma filter_elems_ingredients (s : Store.State)
    (f : Store.ref → Store.Js bool) (P : Ingredient → Prop)
    `{!∀ i, Decision (P i)} (refs : list Store.ref) (la : list Ingredient) :
  Forall2 (Store.is_ingredient (Store.heap s)) refs la →
  (∀ x i, Store.is_ingredient (Store.heap s) x i →
          ∃ b, f x s = Some (Ok b, s) ∧ (b = true ↔ P i)) →
  ∃ kept,
    Store.filter_elems f refs s = Some (Ok kept, s)
    ∧ kept `sublist_of` refs
    ∧ Forall2 (Store.is_ingredient (Store.heap s)) kept (filter P la).
Proof.
  intros Hrefs Hf. induction Hrefs as [|r i refs la Hr _ (kept & IH & Hsub & Hk)].
  - exists []. by repeat split.
  - destruct (Hf r i Hr) as (b & Hfr & Hb).
    simpl. erewrite bind_returns by exact Hfr.
    erewrite bind_returns by exact IH. unfold Store.ret.
    rewrite filter_cons. destruct b.
    + rewrite decide_True by by apply Hb.
      exists (r :: kept). split; [done|]. split; [by constructor|].
      by constructor.
    + rewrite decide_False by (intros HP; apply Hb in HP; congruence).
      exists kept. split; [done|]. split; [by constructor|done].
Qed.

Lemma is_ingredient_extend (h : Store.Heap) (o : Store.Obj)
    (refs : list Store.ref) (l : list Ingredient) :
  Forall2 (Store.is_ingredient h) refs l →
  Forall2 (Store.is_ingredient (h ++ [o])) refs l.
Proof.
  intros Hrefs. eapply Forall2_impl; [exact Hrefs|].
  intros r i. apply lookup_app_l_Some.
Qed.

Lemma is_recipe_extend (h : Store.Heap) (o : Store.Obj) (r a : Store.ref)
    (refs : list Store.ref) (l : list Ingredient) :
  Store.is_recipe h r a refs l → Store.is_recipe (h ++ [o]) r a refs l.
Proof.
  intros (Hr & Ha & Hrefs). split; [by apply lookup_app_l_Some|].
  split; [by apply lookup_app_l_Some|]. by apply is_ingredient_extend.
Qed.

(** ** Sample runs *)

Example sample_value :
  compareIngredients
    (recipeOf [named "spaghetti"; named "cheese"; named "eggs"])
    (recipeOf [named "cheese"; named "tomato"; named "eggs"]) []
  = (Ok [named "cheese"; named "eggs"],
     [mkLog "Common ingredients:" [named "cheese"; named "eggs"]]).
Proof. reflexivity. Qed.

Example sample_store :
  Store.compareIngredients 3 8
    {| Store.heap := sample_heap; Store.console := [] |}
  = Some (Ok 9,
          {| Store.heap := sample_heap ++ [Store.ArrayObj [1]];
             Store.console := [Store.mkLog "Common ingredients:" 9] |}).
Proof. reflexivity. Qed.

(** ** The properties of the matcher *)

(** C1. The scenario of the source: for the ingredients spaghetti, cheese,
    eggs and the ingredients cheese, tomato, eggs the function returns
    exactly cheese, eggs, in that order (and prints them). *)
Theorem source_scenario (c : Console) :
  compareIngredients
    (recipeOf [named "spaghetti"; named "cheese"; named "eggs"])
    (recipeOf [named "cheese"; named "tomato"; named "eggs"]) c
  = (Ok [named "cheese"; named "eggs"],
     logged c [named "cheese"; named "eggs"]).
Proof. reflexivity. Qed.

(** C2. The output lists its elements in the relative order they have in the
    first recipe's list: it is a subsequence of that list.  For eggs, cheese,
    spaghetti against spaghetti, cheese, tomato the output is cheese,
    spaghetti and not spaghetti, cheese. *)
Theorem order_of_first_recipe :
  (∀ (la lb : list Ingredient) (c : Console), ∃ out,
      compareIngredients (recipeOf la) (recipeOf lb) c = (Ok out, logged c out)
      ∧ out `sublist_of` la)
  ∧ (∀ c : Console,
      compareIngredients
        (recipeOf [named "eggs"; named "cheese"; named "spaghetti"])
        (recipeOf [named "spaghetti"; named "cheese"; named "tomato"]) c
      = (Ok [named "cheese"; named "spaghetti"],
         logged c [named "cheese"; named "spaghetti"])
      ∧ (compareIngredients
           (recipeOf [named "eggs"; named "cheese"; named "spaghetti"])
           (recipeOf [named "spaghetti"; named "cheese"; named "tomato"]) c).1
        ≠ Ok [named "spaghetti"; named "cheese"]).
Proof.
  split.
  - intros la lb c. exists (common la lb). split.
    + apply compareIngredients_lists.
    + apply sublist_filter.
  - intros c. split; [reflexivity|]. simpl. discriminate.
Qed.

(** C3. Filter semantics, no deduplication: an entry of the first recipe
    whose name occurs in the second recipe is in the output as many times as
    in the first recipe's list.  For salt, salt, pepper against salt the
    output is salt, salt. *)
Theorem duplicates_retained :
  (∀ (la lb : list Ingredient) (c : Console), ∃ out,
      compareIngredients (recipeOf la) (recipeOf lb) c = (Ok out, logged c out)
      ∧ ∀ x, (∃ y, y ∈ lb ∧ name y = name x) → copies x out = copies x la)
  ∧ (∀ c : Console,
      compareIngredients
        (recipeOf [named "salt"; named "salt"; named "pepper"])
        (recipeOf [named "salt"]) c
      = (Ok [named "salt"; named "salt"],
         logged c [named "salt"; named "salt"])).
Proof.
  split; [|reflexivity].
  intros la lb c. exists (common la lb). split.
  - apply compareIngredients_lists.
  - intros x (y & Hy & Hn). unfold common. rewrite copies_filter.
    rewrite decide_True; [done|]. rewrite <- Hn. by apply list_elem_of_fmap_2.
Qed.

(** Both copies of salt of the first recipe are in the output. *)
Lemma duplicates_retained_witness :
  (∃ y, y ∈ [named "salt"] ∧ name y = name (named "salt"))
  ∧ ∃ out,
      compareIngredients
        (recipeOf [named "salt"; named "salt"; named "pepper"])
        (recipeOf [named "salt"]) []
      = (Ok out, logged [] out)
      ∧ copies (named "salt") out = 2.
Proof.
  assert (∃ y, y ∈ [named "salt"] ∧ name y = name (named "salt")) as Hsalt.
  { exists (named "salt"). split; [left|reflexivity]. }
  split; [exact Hsalt|].
  destruct (proj1 duplicates_retained
              [named "salt"; named "salt"; named "pepper"] [named "salt"] [])
    as (out & Hrun & Hcopies).
  exists out. split; [exact Hrun|].
  rewrite (Hcopies (named "salt") Hsalt). reflexivity.
Defined.

(** C4. Names are matched by strict equality: an ingredient is in the output
    exactly when it is in the first recipe's list and its name is equal to
    the name of an ingredient of the second recipe.  Different names never
    match, so names that differ in case only do not: Tomato does not match
    tomato. *)
Theorem strict_name_matching :
  (∀ (la lb : list Ingredient) (c : Console), ∃ out,
      compareIngredients (recipeOf la) (recipeOf lb) c = (Ok out, logged c out)
      ∧ ∀ x, x ∈ out ↔ x ∈ la ∧ ∃ y, y ∈ lb ∧ name y = name x)
  ∧ (∀ (x y : Ingredient) (c : Console),
      name x ≠ name y →
      compareIngredients (recipeOf [x]) (recipeOf [y]) c = (Ok [], logged c []))
  ∧ (∀ c : Console,
      compareIngredients (recipeOf [named "Tomato"]) (recipeOf [named "tomato"]) c
      = (Ok [], logged c [])).
Proof.
  split; [|split; [|reflexivity]].
  - intros la lb c. exists (common la lb). split.
    + apply compareIngredients_lists.
    + intros x. apply elem_of_common.
  - intros x y c Hne. rewrite compareIngredients_lists.
    unfold common. rewrite filter_cons, decide_False; [done|].
    simpl. rewrite list_elem_of_singleton. done.
Qed.

(** Tomato and tomato are different names, and do not match. *)
Lemma strict_name_matching_witness :
  name (named "Tomato") ≠ name (named "tomato")
  ∧ compareIngredients (recipeOf [named "Tomato"]) (recipeOf [named "tomato"]) []
    = (Ok [], logged [] []).
Proof.
  split; [discriminate|].
  apply (proj1 (proj2 strict_name_matching)). discriminate.
Defined.

(** C5, as the specification has it, fails: a first recipe without an
    [ingredients] property is not read as a recipe with no ingredients; the
    call throws a [TypeError] where an empty list gives an empty result. *)
Lemma missing_ingredients_not_empty :
  compareIngredients {| ingredients := None |} (recipeOf [named "salt"]) []
  = (Throw TypeError, [])
  ∧ compareIngredients (recipeOf []) (recipeOf [named "salt"]) []
    = (Ok [], logged [] [])
  ∧ ¬ ∃ out c', compareIngredients {| ingredients := None |}
                  (recipeOf [named "salt"]) [] = (Ok out, c').
Proof.
  split; [reflexivity|]. split; [reflexivity|].
  intros (out & c' & H). discriminate H.
Qed.

(** C5, amended.  A recipe without an [ingredients] property makes the call
    throw a [TypeError], with nothing printed: always when it is the first
    recipe, and when it is the second recipe and the first recipe has at
    least one ingredient.  When the first recipe's list is empty the second
    recipe is never read, and the result is empty. *)
Theorem missing_ingredients_throws :
  (∀ (recipe2 : Recipe) (c : Console),
      compareIngredients {| ingredients := None |} recipe2 c
      = (Throw TypeError, c))
  ∧ (∀ (x : Ingredient) (la : list Ingredient) (c : Console),
      compareIngredients (recipeOf (x :: la)) {| ingredients := None |} c
      = (Throw TypeError, c))
  ∧ (∀ c : Console,
      compareIngredients (recipeOf []) {| ingredients := None |} c
      = (Ok [], logged c [])).
Proof. repeat split. Qed.

(** C6, as the specification has it, fails: reading the missing [name] of two
    entries gives [undefined] twice, and [undefined === undefined] holds, so
    an entry without a name in the first recipe is in the output when the
    second recipe has an entry without a name. *)
Lemma nameless_entries_match :
  compareIngredients
    (recipeOf [{| name := None; amount := Some 1%Z; unit := None |}])
    (recipeOf [{| name := None; amount := Some 2%Z; unit := None |}]) []
  = (Ok [{| name := None; amount := Some 1%Z; unit := None |}],
     logged [] [{| name := None; amount := Some 1%Z; unit := None |}])
  ∧ ¬ ∀ (la lb : list Ingredient) (x : Ingredient) (out : list Ingredient)
        (c c' : Console),
        compareIngredients (recipeOf la) (recipeOf lb) c = (Ok out, c') →
        name x = None → x ∉ out.
Proof.
  split; [reflexivity|]. intros H.
  apply (H [{| name := None; amount := Some 1%Z; unit := None |}]
           [{| name := None; amount := Some 2%Z; unit := None |}]
           {| name := None; amount := Some 1%Z; unit := None |}
           _ [] _ eq_refl eq_refl).
  left.
Qed.

(** C6, amended.  No fault is raised on entries without a name.  An entry
    without a name matches exactly the entries without a name: such an entry
    of the first recipe is in the output exactly when the second recipe has
    one too, and an ingredient with a name in the output has the name of an
    entry of the second recipe that has a name, so that entries without a
    name in the second recipe make no named ingredient match. *)
Theorem nameless_entries (la lb : list Ingredient) (c : Console) :
  ∃ out,
    compareIngredients (recipeOf la) (recipeOf lb) c = (Ok out, logged c out)
    ∧ (∀ x, name x = None →
         (x ∈ out ↔ x ∈ la ∧ ∃ y, y ∈ lb ∧ name y = None))
    ∧ (∀ x n, name x = Some n →
         (x ∈ out ↔ x ∈ la ∧ ∃ y, y ∈ lb ∧ name y = Some n)).
Proof.
  exists (common la lb). split; [apply compareIngredients_lists|].
  split.
  - intros x Hx. rewrite elem_of_common, Hx. done.
  - intros x n Hx. rewrite elem_of_common, Hx. done.
Qed.

(** An entry without a name is in the output when the second recipe has an
    entry without a name, whatever else the two entries hold. *)
Lemma nameless_entries_witness :
  name {| name := None; amount := Some 1%Z; unit := None |} = None
  ∧ ∃ out,
      compareIngredients
        (recipeOf [{| name := None; amount := Some 1%Z; unit := None |};
                   named "salt"])
        (recipeOf [named "pepper";
                   {| name := None; amount := Some 2%Z; unit := Some "g" |}]) []
      = (Ok out, logged [] out)
      ∧ {| name := None; amount := Some 1%Z; unit := None |} ∈ out
      ∧ named "salt" ∉ out.
Proof.
  split; [reflexivity|].
  destruct (nameless_entries
              [{| name := None; amount := Some 1%Z; unit := None |};
               named "salt"]
              [named "pepper";
               {| name := None; amount := Some 2%Z; unit := Some "g" |}] [])
    as (out & Hrun & Hnameless & Hnamed).
  exists out. split; [exact Hrun|]. split.
  - apply (Hnameless {| name := None; amount := Some 1%Z; unit := None |}
             eq_refl).
    split; [left|].
    exists {| name := None; amount := Some 2%Z; unit := Some "g" |}.
    split; [right; left|reflexivity].
  - intros Hin. apply (Hnamed (named "salt") "salt" eq_refl) in Hin
      as (_ & y & Hy & Hname).
    apply elem_of_cons in Hy as [->|Hy]; [discriminate|].
    apply elem_of_cons in Hy as [->|Hy]; [discriminate|].
    by apply elem_of_nil in Hy.
Defined.

(** C7, as the specification has it, fails: the result against a recipe with
    no ingredients is not empty for every first recipe.  A first recipe
    without an [ingredients] property makes the call throw a [TypeError]. *)
Lemma empty_input_not_every_recipe :
  ¬ ∀ (recipeA : Recipe) (c : Console), ∃ c',
      compareIngredients recipeA (recipeOf []) c = (Ok [], c').
Proof.
  intros H. destruct (H {| ingredients := None |} []) as [c' Hrun].
  discriminate Hrun.
Qed.

(** C7, amended.  For every first recipe that has an ingredient list the
    result against a recipe with no ingredients is empty; a first recipe
    without an [ingredients] property makes that call throw a [TypeError],
    with nothing printed.  For a first recipe with no ingredients the result
    is empty whatever the second recipe is, with or without an [ingredients]
    property. *)
Theorem empty_input :
  (∀ (la : list Ingredient) (c : Console),
      compareIngredients (recipeOf la) (recipeOf []) c = (Ok [], logged c []))
  ∧ (∀ c : Console,
      compareIngredients {| ingredients := None |} (recipeOf []) c
      = (Throw TypeError, c))
  ∧ (∀ (recipeB : Recipe) (c : Console),
      compareIngredients (recipeOf []) recipeB c = (Ok [], logged c [])).
Proof.
  split; [|split].
  - intros la c. rewrite compareIngredients_lists.
    assert (common la [] = []) as ->; [|done].
    unfold common. induction la as [|x la IH]; [done|].
    rewrite filter_cons, decide_False; [done|]. simpl. apply not_elem_of_nil.
  - intros c. done.
  - intros recipeB c. done.
Qed.

(** C8. The comparison is not commutative: with salt in the amount 5 in one
    recipe and salt in the amount 3 in the other, each order of the arguments
    returns the salt of its first argument, and the two results differ. *)
Theorem not_commutative :
  ∃ recipeA recipeB : Recipe, ∀ c : Console,
    compareIngredients recipeA recipeB c
    = (Ok [{| name := Some "salt"; amount := Some 5%Z; unit := None |}],
       logged c [{| name := Some "salt"; amount := Some 5%Z; unit := None |}])
    ∧ compareIngredients recipeB recipeA c
      = (Ok [{| name := Some "salt"; amount := Some 3%Z; unit := None |}],
         logged c [{| name := Some "salt"; amount := Some 3%Z; unit := None |}])
    ∧ (compareIngredients recipeA recipeB c).1
      ≠ (compareIngredients recipeB recipeA c).1.
Proof.
  exists (recipeOf [{| name := Some "salt"; amount := Some 5%Z; unit := None |}]),
         (recipeOf [{| name := Some "salt"; amount := Some 3%Z; unit := None |}]).
  intros c. split; [reflexivity|]. split; [reflexivity|].
  simpl. discriminate.
Qed.

(** C9. For two recipe objects of the store, which may share their array or
    their entries, the call returns a new array and leaves every object that
    was in the store as it was, so that both recipes, their arrays and all
    their entries are unchanged; the new array holds references to entries of
    the first recipe's array only, in the order of that array, and these
    entries are the ingredients the function computes on values. *)
Theorem inputs_unchanged (h : Store.Heap) (c : list Store.LogEntry)
    (recipe1 a1 recipe2 a2 : Store.ref) (refs1 refs2 : list Store.ref)
    (la lb : list Ingredient) :
  Store.is_recipe h recipe1 a1 refs1 la →
  Store.is_recipe h recipe2 a2 refs2 lb →
  ∃ (out : Store.ref) (kept : list Store.ref) (h' : Store.Heap),
    Store.compareIngredients recipe1 recipe2
      {| Store.heap := h; Store.console := c |}
    = Some (Ok out,
            {| Store.heap := h';
               Store.console := c ++ [Store.mkLog "Common ingredients:" out] |})
    ∧ h' = h ++ [Store.ArrayObj kept]
    ∧ (∀ r o, h !! r = Some o → h' !! r = Some o)
    ∧ Store.is_recipe h' recipe1 a1 refs1 la
    ∧ Store.is_recipe h' recipe2 a2 refs2 lb
    ∧ h' !! out = Some (Store.ArrayObj kept)
    ∧ h !! out = None
    ∧ kept `sublist_of` refs1
    ∧ (∀ r, r ∈ kept → r ∈ refs1)
    ∧ ∃ vals,
        (compareIngredients (recipeOf la) (recipeOf lb) []).1 = Ok vals
        ∧ Forall2 (Store.is_ingredient h') kept vals.
Proof.
  intros H1 H2. pose proof H1 as (Hr1 & Ha1 & Hrefs1).
  set (s := {| Store.heap := h; Store.console := c |}).
  destruct (filter_elems_ingredients s
    (λ ingredient,
       Store.bind (Store.get_ingredients recipe2) (λ v2,
       Store.bind (Store.receiver v2) (λ ingredients2,
       Store.array_some
         (λ ing, Store.bind (Store.get_name ing) (λ n,
                 Store.bind (Store.get_name ingredient) (λ m,
                 Store.ret (strict_eq n m))))
         ingredients2)))
    (λ x, name x ∈ name <$> lb) refs1 la Hrefs1)
    as (kept & Hfilter & Hsub & Hkept).
  { intros x i Hx. eexists. split.
    - by apply (callback_ingredients s recipe2 a2 refs2 lb x i).
    - apply some_same_name. }
  exists (length h), kept, (h ++ [Store.ArrayObj kept]).
  split; [|split; [done|]].
  { unfold Store.compareIngredients. fold s.
    erewrite bind_returns by by apply get_ingredients_recipe.
    erewrite bind_returns by by apply receiver_array.
    erewrite bind_returns; last first.
    { unfold Store.array_filter. erewrite bind_returns by exact Hfilter.
      reflexivity. }
    reflexivity. }
  split; [intros r o; apply lookup_app_l_Some|].
  split; [by apply is_recipe_extend|].
  split; [by apply is_recipe_extend|].
  split; [by apply list_lookup_middle|].
  split; [by apply lookup_ge_None_2|].
  split; [done|].
  split; [intros r; by apply sublist_subseteq|].
  exists (common la lb). split.
  - by rewrite compareIngredients_lists.
  - by apply is_ingredient_extend.
Qed.

(** The sample store holds two recipes; the call on them returns and keeps a
    part of the first recipe's array. *)
Lemma inputs_unchanged_witness :
  Store.is_recipe sample_heap 3 2 [0; 1] [named "spaghetti"; named "cheese"]
  ∧ Store.is_recipe sample_heap 8 7 [4; 5; 6]
      [named "cheese"; named "tomato"; named "eggs"]
  ∧ ∃ (out : Store.ref) (kept : list Store.ref),
      Store.compareIngredients 3 8
        {| Store.heap := sample_heap; Store.console := [] |}
      = Some (Ok out,
              {| Store.heap := sample_heap ++ [Store.ArrayObj kept];
                 Store.console := [Store.mkLog "Common ingredients:" out] |})
      ∧ kept `sublist_of` [0; 1].
Proof.
  assert (Store.is_recipe sample_heap 3 2 [0; 1]
            [named "spaghetti"; named "cheese"]) as H1.
  { split; [reflexivity|]. split; [reflexivity|]. by repeat constructor. }
  assert (Store.is_recipe sample_heap 8 7 [4; 5; 6]
            [named "cheese"; named "tomato"; named "eggs"]) as H2.
  { split; [reflexivity|]. split; [reflexivity|]. by repeat constructor. }
  split; [exact H1|]. split; [exact H2|].
  destruct (inputs_unchanged sample_heap [] 3 2 8 7 [0; 1] [4; 5; 6]
              [named "spaghetti"; named "cheese"]
              [named "cheese"; named "tomato"; named "eggs"] H1 H2)
    as (out & kept & h' & Hrun & -> & _ & _ & _ & _ & _ & Hsub & _).
  exists out, kept. split; [exact Hrun|exact Hsub].
Defined.

(** C10. The result depends on the second recipe through the set of its
    ingredient names only: two second recipes with the same set of names,
    whatever the order, the repetitions, the amounts and the units of their
    entries, give the same result and the same output. *)
Theorem second_recipe_names_only (la lb lb' : list Ingredient) (c : Console) :
  list_to_set (name <$> lb) =@{gset (option string)} list_to_set (name <$> lb') →
  compareIngredients (recipeOf la) (recipeOf lb) c
  = compareIngredients (recipeOf la) (recipeOf lb') c.
Proof.
  intros Hnames. rewrite !compareIngredients_lists.
  assert (common la lb = common la lb') as ->; [|done].
  unfold common. apply list_filter_iff. intros x.
  rewrite <- !(elem_of_list_to_set (C:=gset (option string))).
  by rewrite Hnames.
Qed.

(** Two second recipes with the names flour and salt, in different orders,
    with and without amounts, with and without a repetition. *)
Lemma second_recipe_names_only_witness :
  list_to_set
    (name <$> [{| name := Some "flour"; amount := Some 2%Z; unit := Some "cups" |};
               {| name := Some "salt"; amount := Some 1%Z; unit := None |}])
  =@{gset (option string)}
  list_to_set (name <$> [named "salt"; named "flour"; named "salt"])
  ∧ compareIngredients
    (recipeOf [named "salt"; named "eggs"; named "flour"])
    (recipeOf [{| name := Some "flour"; amount := Some 2%Z; unit := Some "cups" |};
               {| name := Some "salt"; amount := Some 1%Z; unit := None |}]) []
  = compareIngredients
      (recipeOf [named "salt"; named "eggs"; named "flour"])
      (recipeOf [named "salt"; named "flour"; named "salt"]) [].
Proof.
  assert (list_to_set
    (name <$> [{| name := Some "flour"; amount := Some 2%Z; unit := Some "cups" |};
               {| name := Some "salt"; amount := Some 1%Z; unit := None |}])
    =@{gset (option string)}
    list_to_set (name <$> [named "salt"; named "flour"; named "salt"])) as H.
  { simpl. set_solver. }
  split; [exact H|]. apply second_recipe_names_only. exact H.
Defined.

(** ** Further properties of the comparison *)

Lemma common_all (la lb : list Ingredient) :
  (∀ x, x ∈ la → name x ∈ name <$> lb) → common la lb = la.
Proof.
  unfold common. induction la as [|x la IH]; intros Hall; [done|].
  rewrite filter_cons, decide_True by (apply Hall; left).
  f_equal. apply IH. intros y Hy. apply Hall. by right.
Qed.

Lemma common_nil (la lb : list Ingredient) :
  common la lb = [] ↔ ∀ x y, x ∈ la → y ∈ lb → name x ≠ name y.
Proof.
  split.
  - intros Hnil x y Hx Hy Hname.
    assert (x ∈ common la lb) as Hin.
    { apply elem_of_common. split; [done|]. by exists y. }
    rewrite Hnil in Hin. by apply elem_of_nil in Hin.
  - intros Hno. destruct (common la lb) as [|x out] eqn:Hout; [done|].
    assert (x ∈ common la lb) as Hin by (rewrite Hout; left).
    apply elem_of_common in Hin as (Hx & y & Hy & Hname).
    by destruct (Hno x y Hx Hy).
Qed.

Lemma common_more_names (la lb lb' : list Ingredient) :
  (∀ n, n ∈ name <$> lb → n ∈ name <$> lb') →
  common la lb `sublist_of` common la lb'.
Proof.
  intros Hsub. unfold common. induction la as [|x la IH]; [done|].
  rewrite !filter_cons.
  destruct (decide (name x ∈ name <$> lb)) as [Hx|Hx].
  - rewrite decide_True by by apply Hsub. by constructor.
  - destruct (decide (name x ∈ name <$> lb')); [by constructor|done].
Qed.

Lemma names_of_common (la lb : list Ingredient) :
  list_to_set (name <$> common la lb)
  =@{gset (option string)}
  list_to_set (name <$> la) ∩ list_to_set (name <$> lb).
Proof.
  apply set_eq. intros n.
  rewrite elem_of_intersection, !elem_of_list_to_set, !list_elem_of_fmap.
  split.
  - intros (x & -> & (Hx & y & Hy & Hname)%elem_of_common).
    split; [by exists x|by exists y].
  - intros [(x & -> & Hx) (y & Hname & Hy)].
    exists x. split; [done|]. apply elem_of_common. split; [done|]. by exists y.
Qed.

(** X1. A recipe compared with itself gives back its whole ingredient list,
    entries without a name included. *)
Theorem compare_with_itself (la : list Ingredient) (c : Console) :
  compareIngredients (recipeOf la) (recipeOf la) c = (Ok la, logged c la).
Proof.
  rewrite compareIngredients_lists, common_all; [done|].
  intros x Hx. by apply list_elem_of_fmap_2.
Qed.

(** X2. Comparing the result against the same second recipe once more changes
    nothing: the result is a fixed point of the comparison. *)
Theorem compare_again (la lb : list Ingredient) (c c' : Console) :
  ∃ out,
    compareIngredients (recipeOf la) (recipeOf lb) c = (Ok out, logged c out)
    ∧ compareIngredients (recipeOf out) (recipeOf lb) c'
      = (Ok out, logged c' out).
Proof.
  exists (common la lb). split; [apply compareIngredients_lists|].
  rewrite compareIngredients_lists, common_all; [done|].
  intros x Hx. apply elem_of_common in Hx as (_ & y & Hy & <-).
  by apply list_elem_of_fmap_2.
Qed.

(** X3. On names the comparison is symmetric although on entries it is not:
    the names in the result are the names the two recipes share, whichever
    recipe comes first. *)
Theorem shared_names_symmetric (la lb : list Ingredient) (c : Console) :
  ∃ out_ab out_ba,
    compareIngredients (recipeOf la) (recipeOf lb) c
    = (Ok out_ab, logged c out_ab)
    ∧ compareIngredients (recipeOf lb) (recipeOf la) c
      = (Ok out_ba, logged c out_ba)
    ∧ list_to_set (name <$> out_ab)
      =@{gset (option string)}
      list_to_set (name <$> la) ∩ list_to_set (name <$> lb)
    ∧ list_to_set (name <$> out_ab)
      =@{gset (option string)} list_to_set (name <$> out_ba).
Proof.
  exists (common la lb), (common lb la).
  split; [apply compareIngredients_lists|].
  split; [apply compareIngredients_lists|].
  split; [apply names_of_common|].
  rewrite !names_of_common. apply (comm_L (∩)).
Qed.

(** X4. The comparison goes through the first recipe entry by entry: for a
    first recipe whose list is one list followed by another, the result is
    the result for the one followed by the result for the other. *)
Theorem compare_app (la1 la2 lb : list Ingredient) (c : Console) :
  ∃ out1 out2,
    compareIngredients (recipeOf la1) (recipeOf lb) c
    = (Ok out1, logged c out1)
    ∧ compareIngredients (recipeOf la2) (recipeOf lb) c
      = (Ok out2, logged c out2)
    ∧ compareIngredients (recipeOf (la1 ++ la2)) (recipeOf lb) c
      = (Ok (out1 ++ out2), logged c (out1 ++ out2)).
Proof.
  exists (common la1 lb), (common la2 lb).
  split; [apply compareIngredients_lists|].
  split; [apply compareIngredients_lists|].
  rewrite compareIngredients_lists. unfold common. by rewrite filter_app.
Qed.

(** X5. A second recipe with more names keeps more: when every name of [lb]
    is a name of [lb'], the result against [lb] is a subsequence of the
    result against [lb']. *)
Theorem compare_more_names (la lb lb' : list Ingredient) (c : Console) :
  (∀ n, n ∈ name <$> lb → n ∈ name <$> lb') →
  ∃ out out',
    compareIngredients (recipeOf la) (recipeOf lb) c = (Ok out, logged c out)
    ∧ compareIngredients (recipeOf la) (recipeOf lb') c
      = (Ok out', logged c out')
    ∧ out `sublist_of` out'.
Proof.
  intros Hsub. exists (common la lb), (common la lb').
  split; [apply compareIngredients_lists|].
  split; [apply compareIngredients_lists|].
  by apply common_more_names.
Qed.

(** Adding pepper to a second recipe that has salt keeps the salt. *)
Lemma compare_more_names_witness :
  ∃ out out',
    compareIngredients (recipeOf [named "salt"; named "pepper"])
      (recipeOf [named "salt"]) []
    = (Ok out, logged [] out)
    ∧ compareIngredients (recipeOf [named "salt"; named "pepper"])
        (recipeOf [named "pepper"; named "salt"]) []
      = (Ok out', logged [] out')
    ∧ out `sublist_of` out'.
Proof.
  apply (compare_more_names [named "salt"; named "pepper"]
           [named "salt"] [named "pepper"; named "salt"] []).
  intros n Hn. apply list_elem_of_singleton in Hn as ->. right; left.
Defined.

(** X6. The result never has more entries than the first recipe, and it is
    empty exactly when no entry of the first recipe has the name of an entry
    of the second: no match is an empty result, not an error. *)
Theorem no_match (la lb : list Ingredient) (c : Console) :
  ∃ out,
    compareIngredients (recipeOf la) (recipeOf lb) c = (Ok out, logged c out)
    ∧ (length out ≤ length la)%nat
    ∧ (out = [] ↔ ∀ x y, x ∈ la → y ∈ lb → name x ≠ name y).
Proof.
  exists (common la lb). split; [apply compareIngredients_lists|].
  split; [apply length_filter|apply common_nil].
Qed.

(** X7. Whatever the two recipes are, a call that returns prints one line,
    which holds the value it returns, after what was printed before; a call
    that throws prints nothing. *)
Theorem console_one_line (recipe1 recipe2 : Recipe) (c : Console) :
  (compareIngredients recipe1 recipe2 c).2
  = match (compareIngredients recipe1 recipe2 c).1 with
    | Ok out => logged c out
    | Throw _ => c
    end.
Proof.
  destruct recipe1 as [[la|]], recipe2 as [[lb|]]; [| |done..].
  - pose proof (compareIngredients_lists la lb c) as Hrun.
    unfold recipeOf in Hrun. by rewrite Hrun.
  - by destruct la.
Qed.

(** X8. On the store, whatever the two references name and whether the call
    returns or throws, every object that was in the store is still there,
    unchanged, under the same reference.  A call that throws leaves store and
    console as they were; a call that returns has added one array, under a
    reference that named nothing before, and one line to the console. *)
Theorem store_objects_kept (recipe1 recipe2 : Store.ref)
    (s s' : Store.State) (res : JsResult Store.ref) :
  Store.compareIngredients recipe1 recipe2 s = Some (res, s') →
  (∀ r o, Store.heap s !! r = Some o → Store.heap s' !! r = Some o)
  ∧ match res with
    | Throw _ => s' = s
    | Ok out =>
        Store.heap s !! out = None
        ∧ (∃ kept, Store.heap s' = Store.heap s ++ [Store.ArrayObj kept])
        ∧ Store.console s'
          = Store.console s ++ [Store.mkLog "Common ingredients:" out]
    end.
Proof.
  intros Hrun. apply compareIngredients_writes_nothing in Hrun.
  destruct res as [out|e].
  - destruct Hrun as (kept & -> & Hheap & Hconsole). rewrite Hheap.
    split; [intros r o; apply lookup_app_l_Some|].
    split; [by apply lookup_ge_None_2|]. split; [by exists kept|done].
  - by subst s'.
Qed.

(** The call on the two recipes of the sample store returns, and what the
    store held is still there. *)
Lemma store_objects_kept_witness :
  Store.compareIngredients 3 8
    {| Store.heap := sample_heap; Store.console := [] |}
  = Some (Ok 9,
          {| Store.heap := sample_heap ++ [Store.ArrayObj [1]];
             Store.console := [Store.mkLog "Common ingredients:" 9] |})
  ∧ ∀ r o, sample_heap !! r = Some o →
           (sample_heap ++ [Store.ArrayObj [1]]) !! r = Some o.
Proof.
  split; [reflexivity|].
  exact (proj1 (store_objects_kept 3 8
                  {| Store.heap := sample_heap; Store.console := [] |}
                  {| Store.heap := sample_heap ++ [Store.ArrayObj [1]];
                     Store.console := [Store.mkLog "Common ingredients:" 9] |}
                  (Ok 9) eq_refl)).
Defined.

(** ** The start of the server *)

Lemma truthy_Some (v : option string) :
  Server.truthy v = true ↔ ∃ s, v = Some s ∧ s ≠ "".
Proof.
  destruct v as [s|]; simpl.
  - rewrite negb_true_iff, String.eqb_neq. split.
    + intros Hs. by exists s.
    + by intros (? & [= <-] & Hs).
  - split; [done|]. by intros (? & ? & _).
Qed.

Lemma check_run (env : gmap string string) (var : string) (err : list string) :
  Server.check env var err
  = if Server.truthy (env !! var) then (Server.Continue (), err)
    else (Server.Exit 1,
          err ++ ["Error: Missing required environment variable: " +:+ var]).
Proof. unfold Server.check. by destruct (Server.truthy (env !! var)). Qed.

Lemma start_run (env : gmap string string) (err : list string) :
  Server.start env err
  = if Server.truthy (env !! "PORT") then
      if Server.truthy (env !! "MONGODB_URI") then
        (Server.Continue (Server.PORT env), err)
      else
        (Server.Exit 1,
         err ++ ["Error: Missing required environment variable: MONGODB_URI"])
    else
      (Server.Exit 1,
       err ++ ["Error: Missing required environment variable: PORT"]).
Proof.
  unfold Server.start, Server.requiredEnv, Server.forEach.
  unfold Server.andThen at 1 2. rewrite check_run.
  destruct (Server.truthy (env !! "PORT")); [|done].
  unfold Server.andThen at 1. rewrite check_run.
  by destruct (Server.truthy (env !! "MONGODB_URI")).
Qed.

(** X9. The script gets past the check of the environment exactly when both
    PORT and MONGODB_URI are set to a string that is not empty; a variable
    set to the empty string counts as missing. *)
Theorem start_continues_iff (env : gmap string string) (err : list string) :
  (∃ port err', Server.start env err = (Server.Continue port, err'))
  ↔ (∃ p u, env !! "PORT" = Some p ∧ p ≠ ""
            ∧ env !! "MONGODB_URI" = Some u ∧ u ≠ "").
Proof.
  rewrite start_run. split.
  - intros (port & err' & Hrun).
    destruct (Server.truthy (env !! "PORT")) eqn:Hp; [|done].
    destruct (Server.truthy (env !! "MONGODB_URI")) eqn:Hu; [|done].
    apply truthy_Some in Hp as (p & ? & ?), Hu as (u & ? & ?).
    by exists p, u.
  - intros (p & u & Hp & Hpne & Hu & Hune).
    assert (Server.truthy (env !! "PORT") = true) as ->
      by (apply truthy_Some; by exists p).
    assert (Server.truthy (env !! "MONGODB_URI") = true) as ->
      by (apply truthy_Some; by exists u).
    by eexists _, _.
Qed.

(** X10. When the script gets past the check, nothing was printed and PORT
    is the string of the environment: the number 8000 after [||] is never
    used. *)
Theorem port_is_from_env (env : gmap string string) (err err' : list string)
    (port : Server.PortValue) :
  Server.start env err = (Server.Continue port, err') →
  err' = err
  ∧ ∃ s, env !! "PORT" = Some s ∧ s ≠ "" ∧ port = Server.PortString s.
Proof.
  rewrite start_run. intros Hrun.
  destruct (Server.truthy (env !! "PORT")) eqn:Hp; [|done].
  destruct (Server.truthy (env !! "MONGODB_URI")); [|done].
  injection Hrun as <- <-. split; [done|].
  pose proof Hp as (s & Hs & Hne)%truthy_Some.
  exists s. split; [done|]. split; [done|].
  unfold Server.PORT. rewrite Hs. rewrite Hs in Hp. by rewrite Hp.
Qed.

(** With both variables set the port is the string 3000. *)
Lemma port_is_from_env_witness :
  Server.start {[ "PORT" := "3000"; "MONGODB_URI" := "mongodb://db" ]} []
  = (Server.Continue (Server.PortString "3000"), [])
  ∧ ∃ s, ({[ "PORT" := "3000"; "MONGODB_URI" := "mongodb://db" ]}
            : gmap string string) !! "PORT" = Some s
         ∧ s ≠ "" ∧ Server.PortString "3000" = Server.PortString s.
Proof.
  assert (Server.start {[ "PORT" := "3000"; "MONGODB_URI" := "mongodb://db" ]} []
          = (Server.Continue (Server.PortString "3000"), [])) as Hrun.
  { rewrite start_run. unfold Server.PORT. by simplify_map_eq. }
  split; [exact Hrun|].
  exact (proj2 (port_is_from_env _ _ _ _ Hrun)).
Defined.

(** X11. When the check fails the process ends with code 1 after exactly one
    line on the error stream, which names the first missing variable in the
    order PORT, MONGODB_URI: with both missing only PORT is reported. *)
Theorem start_exits (env : gmap string string) (err err' : list string)
    (code : Z) :
  Server.start env err = (Server.Exit code, err') →
  code = 1%Z
  ∧ err' = err ++ ["Error: Missing required environment variable: "
                   +:+ (if Server.truthy (env !! "PORT")
                        then "MONGODB_URI" else "PORT")].
Proof.
  rewrite start_run. intros Hrun.
  destruct (Server.truthy (env !! "PORT")).
  - destruct (Server.truthy (env !! "MONGODB_URI")); [done|].
    by injection Hrun as <- <-.
  - by injection Hrun as <- <-.
Qed.

(** With an empty environment only PORT is reported. *)
Lemma start_exits_witness :
  Server.start ∅ [] = (Server.Exit 1, ["Error: Missing required environment variable: PORT"])
  ∧ 1%Z = 1%Z
  ∧ ["Error: Missing required environment variable: PORT"]
    = [] ++ ["Error: Missing required environment variable: "
             +:+ (if Server.truthy ((∅ : gmap string string) !! "PORT")
                  then "MONGODB_URI" else "PORT")].
Proof.
  assert (Server.start ∅ []
          = (Server.Exit 1,
             ["Error: Missing required environment variable: PORT"])) as Hrun.
  { by rewrite start_run. }
  split; [exact Hrun|].
  exact (start_exits ∅ [] _ 1 Hrun).
Defined.

(** ** The script of the form *)

Lemma string_app_cons (a : ascii) (s t : string) :
  String a s +:+ t = String a (s +:+ t).
Proof. reflexivity. Qed.

Lemma string_app_assoc (s t u : string) : (s +:+ t) +:+ u = s +:+ (t +:+ u).
Proof.
  induction s as [|a s IH]; [done|]. by rewrite !string_app_cons, IH.
Qed.

Lemma string_app_length (s t : string) :
  String.length (s +:+ t) = (String.length s + String.length t)%nat.
Proof.
  induction s as [|a s IH]; [done|]. rewrite string_app_cons. simpl.
  by rewrite IH.
Qed.

Lemma string_app_inv_length (s1 s2 t1 t2 : string) :
  String.length s1 = String.length s2 →
  s1 +:+ t1 = s2 +:+ t2 → s1 = s2.
Proof.
  revert s2. induction s1 as [|a s1 IH]; intros [|b s2] Hlen Heq;
    try done.
  rewrite !string_app_cons in Heq. injection Heq as -> Heq. f_equal.
  apply IH; [by injection Hlen|done].
Qed.

Lemma ingredient_html_length (count : N) :
  String.length (Form.ingredient_html count)
  = (295 + 3 * String.length (pretty count))%nat.
Proof.
  unfold Form.ingredient_html, Form.quoted.
  rewrite !string_app_length. cbn. lia.
Qed.

Lemma ingredient_html_inj (n m : N) :
  Form.ingredient_html n = Form.ingredient_html m → n = m.
Proof.
  intros Heq.
  assert (String.length (pretty n) = String.length (pretty m)) as Hlen.
  { apply (f_equal String.length) in Heq.
    rewrite !ingredient_html_length in Heq. lia. }
  unfold Form.ingredient_html, Form.quoted in Heq.
  rewrite !string_app_assoc in Heq.
  repeat apply (inj (String.app _)) in Heq.
  apply (inj pretty). by eapply string_app_inv_length.
Qed.

Lemma increment_below (n : N) :
  (n < Form.max_count)%N → Form.increment n = (n + 1)%N.
Proof.
  intros Hn. unfold Form.increment.
  by destruct (N.ltb_spec n Form.max_count); [|lia].
Qed.

Lemma addIngredient_present (p : Form.Page) (l : list Form.Element) :
  Form.children p !! "ingredientsContainer" = Some l →
  Form.addIngredient p
  = (Ok (),
     {| Form.ingredientCount := Form.increment (Form.ingredientCount p);
        Form.instructionCount := Form.instructionCount p;
        Form.children :=
          <["ingredientsContainer" :=
              l ++ [Form.ingredient_row (Form.ingredientCount p)]]>
            (Form.children p) |}).
Proof. unfold Form.addIngredient, Form.appendChild. by intros ->. Qed.

Lemma addIngredient_absent (p : Form.Page) :
  Form.children p !! "ingredientsContainer" = None →
  Form.addIngredient p = (Throw TypeError, p).
Proof. unfold Form.addIngredient, Form.appendChild. by intros ->. Qed.

Lemma addInstruction_present (p : Form.Page) (l : list Form.Element) :
  Form.children p !! "instructionsContainer" = Some l →
  Form.addInstruction p
  = (Ok (),
     {| Form.ingredientCount := Form.ingredientCount p;
        Form.instructionCount := Form.increment (Form.instructionCount p);
        Form.children :=
          <["instructionsContainer" :=
              l ++ [{| Form.localName := "div";
                       Form.className := "instruction";
                       Form.innerHTML :=
                         Form.instruction_html (Form.instructionCount p) |}]]>
            (Form.children p) |}).
Proof. unfold Form.addInstruction, Form.appendChild. by intros ->. Qed.

Lemma addInstruction_absent (p : Form.Page) :
  Form.children p !! "instructionsContainer" = None →
  Form.addInstruction p = (Throw TypeError, p).
Proof. unfold Form.addInstruction, Form.appendChild. by intros ->. Qed.

(** X12. A call of [addIngredient] fails exactly when the page has no element
    with the id ingredientsContainer, and a failed call leaves the page as it
    was, the counter included; no call changes the counter of the
    instructions or the children of another element. *)
Theorem addIngredient_frame (p : Form.Page) :
  ((Form.addIngredient p).1 = Throw TypeError
   ↔ Form.children p !! "ingredientsContainer" = None)
  ∧ ((Form.addIngredient p).1 = Throw TypeError → (Form.addIngredient p).2 = p)
  ∧ Form.instructionCount (Form.addIngredient p).2 = Form.instructionCount p
  ∧ ∀ id, id ≠ "ingredientsContainer" →
      Form.children (Form.addIngredient p).2 !! id = Form.children p !! id.
Proof.
  destruct (Form.children p !! "ingredientsContainer") as [l|] eqn:Hc.
  - rewrite (addIngredient_present p l Hc). simpl.
    split; [done|]. split; [done|]. split; [done|].
    intros id Hid. by rewrite lookup_insert_ne.
  - rewrite (addIngredient_absent p Hc). done.
Qed.

(** X13. With the container on the page and the counter at [k], [n] calls
    append [n] rows after the children the container had, numbered [k],
    [k + 1], ... in the order of the calls, and leave the counter at
    [k + n], as long as that does not exceed [2^53]. *)
Theorem addIngredients_rows (n : nat) (p : Form.Page) (l : list Form.Element) :
  Form.children p !! "ingredientsContainer" = Some l →
  (Form.ingredientCount p + N.of_nat n ≤ Form.max_count)%N →
  Form.addIngredients n p
  = {| Form.ingredientCount := Form.ingredientCount p + N.of_nat n;
       Form.instructionCount := Form.instructionCount p;
       Form.children :=
         <["ingredientsContainer" :=
             l ++ ((λ i, Form.ingredient_row
                           (Form.ingredientCount p + N.of_nat i)) <$> seq 0 n)]>
           (Form.children p) |}.
Proof.
  revert p l. induction n as [|n IH]; intros p l Hc Hmax.
  - simpl. rewrite N.add_0_r, app_nil_r, insert_id by done. by destruct p.
  - simpl Form.addIngredients.
    rewrite (addIngredient_present p l Hc); simpl.
    rewrite (IH _ (l ++ [Form.ingredient_row (Form.ingredientCount p)]));
      simpl.
    + rewrite increment_below by lia. rewrite insert_insert_eq.
      f_equal; [lia|]. f_equal. rewrite <- (assoc_L (++)). f_equal.
      simpl. f_equal; [by rewrite N.add_0_r|].
      rewrite <- fmap_S_seq, <- list_fmap_compose.
      apply list_fmap_ext. intros _ i _. simpl. f_equal. lia.
    + by rewrite lookup_insert_eq.
    + rewrite increment_below by lia. lia.
Qed.

(** Two calls on a page with an empty container and the counter at 1. *)
Lemma addIngredients_rows_witness :
  Form.children
    {| Form.ingredientCount := 1; Form.instructionCount := 1;
       Form.children := {[ "ingredientsContainer" := [] ]} |}
    !! "ingredientsContainer" = Some []
  ∧ Form.children
      (Form.addIngredients 2
         {| Form.ingredientCount := 1; Form.instructionCount := 1;
            Form.children := {[ "ingredientsContainer" := [] ]} |})
    !! "ingredientsContainer"
    = Some [Form.ingredient_row 1; Form.ingredient_row 2].
Proof.
  assert (Form.children
    {| Form.ingredientCount := 1; Form.instructionCount := 1;
       Form.children := {[ "ingredientsContainer" := [] ]} |}
    !! "ingredientsContainer" = Some []) as Hc by done.
  split; [exact Hc|].
  rewrite (addIngredients_rows 2 _ [] Hc); [|done].
  simpl. by rewrite lookup_insert_eq.
Defined.

(** X14. Under the same conditions the rows added by the calls are pairwise
    different in their HTML, so that no two of them carry the same field
    names. *)
Theorem added_rows_distinct (n : nat) (p : Form.Page) (l : list Form.Element) :
  Form.children p !! "ingredientsContainer" = Some l →
  (Form.ingredientCount p + N.of_nat n ≤ Form.max_count)%N →
  ∃ rows,
    Form.children (Form.addIngredients n p) !! "ingredientsContainer"
    = Some (l ++ rows)
    ∧ length rows = n
    ∧ NoDup (Form.innerHTML <$> rows).
Proof.
  intros Hc Hmax. rewrite (addIngredients_rows n p l Hc Hmax). simpl.
  eexists. split; [by rewrite lookup_insert_eq|].
  split; [by rewrite length_fmap, length_seq|].
  rewrite <- list_fmap_compose.
  apply NoDup_fmap_2_strong; [|apply NoDup_seq].
  intros i j _ _ Heq. simpl in Heq.
  apply ingredient_html_inj in Heq. lia.
Qed.

(** Three calls on a page with an empty container and the counter at 1. *)
Lemma added_rows_distinct_witness :
  ∃ rows,
    Form.children
      (Form.addIngredients 3
         {| Form.ingredientCount := 1; Form.instructionCount := 1;
            Form.children := {[ "ingredientsContainer" := [] ]} |})
      !! "ingredientsContainer"
    = Some ([] ++ rows)
    ∧ length rows = 3
    ∧ NoDup (Form.innerHTML <$> rows).
Proof.
  apply (added_rows_distinct 3
           {| Form.ingredientCount := 1; Form.instructionCount := 1;
              Form.children := {[ "ingredientsContainer" := [] ]} |} []);
    done.
Defined.

(** X15. Adding an ingredient row and adding an instruction row do not
    interfere: in either order the two calls leave the same page, and each
    fails or succeeds as it would alone. *)
Theorem add_commute (p : Form.Page) :
  (Form.addInstruction (Form.addIngredient p).2).2
  = (Form.addIngredient (Form.addInstruction p).2).2
  ∧ (Form.addInstruction (Form.addIngredient p).2).1 = (Form.addInstruction p).1
  ∧ (Form.addIngredient (Form.addInstruction p).2).1 = (Form.addIngredient p).1.
Proof.
  destruct (Form.children p !! "ingredientsContainer") as [l1|] eqn:H1;
    destruct (Form.children p !! "instructionsContainer") as [l2|] eqn:H2.
  - rewrite (addIngredient_present p l1 H1), (addInstruction_present p l2 H2).
    simpl.
    rewrite (addInstruction_present _ l2)
      by (simpl; by rewrite lookup_insert_ne).
    rewrite (addIngredient_present _ l1)
      by (simpl; by rewrite lookup_insert_ne).
    simpl. split; [|done]. f_equal. by apply insert_insert_ne.
  - rewrite (addIngredient_present p l1 H1), (addInstruction_absent p H2).
    simpl.
    rewrite (addInstruction_absent _)
      by (simpl; by rewrite lookup_insert_ne).
    by rewrite (addIngredient_present p l1 H1).
  - rewrite (addIngredient_absent p H1), (addInstruction_present p l2 H2).
    simpl.
    rewrite (addIngredient_absent _)
      by (simpl; by rewrite lookup_insert_ne).
    by rewrite (addInstruction_present p l2 H2).
  - rewrite (addIngredient_absent p H1), (addInstruction_absent p H2).
    simpl. by rewrite (addIngredient_absent p H1), (addInstruction_absent p H2).
Qed.

(** ** The components of the client *)

Lemma string_app_nil_r (s : string) : s +:+ "" = s.
Proof. induction s as [|a s IH]; [done|]. by rewrite string_app_cons, IH. Qed.

(** The loop of [join], once past its first element. *)
Lemma join_loop (sep : string) (l : list (option string)) (R : string)
    (k : nat) :
  (fold_left
     (λ '(R, k) element,
        ((if (0 <? k)%nat then R +:+ sep else R) +:+ default "" element, S k))
     l (R, S k)).1
  = R +:+ foldr (λ element s, sep +:+ default "" element +:+ s) "" l.
Proof.
  revert R k. induction l as [|e l IH]; intros R k; simpl.
  - by rewrite string_app_nil_r.
  - rewrite IH. by rewrite !string_app_assoc.
Qed.

Lemma shown_names_cons (x : Ingredient) (l : list Ingredient) :
  Client.shown_names (x :: l)
  = default "" (name x)
    +:+ foldr (λ element s, ", " +:+ default "" element +:+ s) "" (name <$> l).
Proof.
  revert x. induction l as [|y l IH]; intros x.
  - simpl. by rewrite string_app_nil_r.
  - change (Client.shown_names (x :: y :: l))
      with (default "" (name x) +:+ ", " +:+ Client.shown_names (y :: l)).
    by rewrite IH.
Qed.

Lemma join_names (l : list Ingredient) :
  Client.array_join ", " (name <$> l) = Client.shown_names l.
Proof.
  destruct l as [|x l]; [done|].
  rewrite shown_names_cons. unfold Client.array_join. simpl.
  by rewrite join_loop.
Qed.

(** X16. The card of a recipe with an ingredient list shows, between the
    title and the image, the names of the ingredients in the order of the
    list, separated by a comma and a space, with no separator before the
    first or after the last and an empty string for an entry without a
    name; a missing title or image does not make the card fail. *)
Theorem card_shows_names (id t img : option string) (l : list Ingredient) :
  Client.RecipeCard
    {| Client._id := id; Client.title := t; Client.image := img;
       Client.fields := recipeOf l |}
  = Ok (Client.Host "div" []
          [ Client.Host "h3" [] [Client.Text t];
            Client.Host "p" [] [Client.Text (Some (Client.shown_names l))];
            Client.Host "img"
              [ ("src", Client.PropString img);
                ("alt", Client.PropString t);
                ("style",
                 Client.PropStyle [("width", "200px"); ("height", "auto")]) ]
              [] ]).
Proof.
  unfold Client.RecipeCard, Client.ingredientLine. simpl.
  by rewrite join_names.
Qed.

Lemma render_host (tag : string) (props : list (string * Client.PropValue))
    (kids : list Client.ReactElement) :
  Client.render (Client.Host tag props kids)
  = match Client.render_kids kids with
    | Throw x => Throw x
    | Ok kids' => Ok (Client.Host tag props kids')
    end.
Proof. reflexivity. Qed.

(** What [RecipeCard] returns holds no component: rendering it again gives
    the same tree. *)
Lemma render_card (recipe : Client.RecipeDoc) (card : Client.ReactElement) :
  Client.RecipeCard recipe = Ok card → Client.render card = Ok card.
Proof.
  unfold Client.RecipeCard. destruct (Client.ingredientLine recipe); [|done].
  by intros [= <-].
Qed.

Lemma render_kids_card (r : Client.RecipeDoc)
    (ks : list Client.ReactElement) :
  Client.render_kids (Client.RecipeCardElement (Client._id r) r :: ks)
  = match Client.RecipeCard r with
    | Throw x => Throw x
    | Ok k' =>
        match Client.render_kids ks with
        | Throw x => Throw x
        | Ok ks' => Ok (k' :: ks')
        end
    end.
Proof. reflexivity. Qed.

Lemma render_cards_ok (l : list Client.RecipeDoc) :
  Forall (λ r, is_Some (ingredients (Client.fields r))) l →
  ∃ cards,
    Forall2 (λ r card, Client.RecipeCard r = Ok card) l cards
    ∧ Client.render_kids
        ((λ recipe, Client.RecipeCardElement (Client._id recipe) recipe) <$> l)
      = Ok cards.
Proof.
  induction 1 as [|r l [la Hr] _ (cards & Hcards & IH)].
  - by exists [].
  - assert (∃ card, Client.RecipeCard r = Ok card) as [card Hcard].
    { unfold Client.RecipeCard, Client.ingredientLine. rewrite Hr. eauto. }
    exists (card :: cards). split; [by constructor|].
    by rewrite fmap_cons, render_kids_card, Hcard, IH.
Qed.

Lemma render_cards_throw (l : list Client.RecipeDoc) :
  Exists (λ r, ingredients (Client.fields r) = None) l →
  Client.render_kids
    ((λ recipe, Client.RecipeCardElement (Client._id recipe) recipe) <$> l)
  = Throw TypeError.
Proof.
  induction 1 as [r l Hr|r l _ IH]; rewrite fmap_cons, render_kids_card.
  - unfold Client.RecipeCard, Client.ingredientLine. by rewrite Hr.
  - rewrite IH. by destruct (Client.RecipeCard r) as [card|[]].
Qed.

(** X17. [RecipeList] prints the list it receives and returns a [div] whose
    children are one [RecipeCard] element for every recipe, in the order of
    the list, each with the [_id] of its recipe as key and the recipe as
    property.  Rendering them succeeds exactly when every recipe has an
    ingredient list, and then gives the cards of the recipes in the order of
    the list; one recipe without [ingredients] makes the rendering of the
    whole list throw a [TypeError]. *)
Theorem list_renders (l : list Client.RecipeDoc) (c : list Client.ListLog) :
  ∃ e,
    Client.RecipeList (Some l) c
    = (Ok e, c ++ [Client.mkListLog "Recipes passed to RecipeList:" (Some l)])
    ∧ e = Client.Host "div" []
            ((λ recipe, Client.RecipeCardElement (Client._id recipe) recipe)
               <$> l)
    ∧ ((∃ out, Client.render e = Ok out)
       ↔ Forall (λ r, is_Some (ingredients (Client.fields r))) l)
    ∧ (∀ out, Client.render e = Ok out →
         ∃ cards,
           out = Client.Host "div" [] cards
           ∧ Forall2 (λ r card, Client.RecipeCard r = Ok card) l cards)
    ∧ ((∃ r, r ∈ l ∧ ingredients (Client.fields r) = None) →
         Client.render e = Throw TypeError).
Proof.
  eexists. split; [reflexivity|]. split; [reflexivity|]. rewrite render_host.
  destruct (decide (Forall (λ r, is_Some (ingredients (Client.fields r))) l))
    as [Hall|Hsome].
  - destruct (render_cards_ok l Hall) as (cards & Hcards & ->).
    split; [split; [done|by eexists]|].
    split.
    + intros out [= <-]. by exists cards.
    + intros (r & Hr & Hnone). rewrite Forall_forall in Hall.
      destruct (Hall r Hr) as [la Hla]. congruence.
  - assert (Exists (λ r, ingredients (Client.fields r) = None) l) as Hex.
    { apply not_Forall_Exists in Hsome; [|apply _].
      eapply Exists_impl; [exact Hsome|]. simpl. intros r Hr.
      destruct (ingredients (Client.fields r)); [|done].
      destruct Hr. by eexists. }
    rewrite (render_cards_throw l Hex).
    split; [split; [by intros [out ?]|done]|].
    split; [done|done].
Qed.

(** X18. The rows of the instructions are numbered by their own counter: with
    the container on the page and that counter at [k], [n] calls of
    [addInstruction] append the rows [k], [k + 1], ... after the children the
    container had and leave the counter at [k + n], as long as that does not
    exceed [2^53]; the counter of the ingredients stays as it was. *)
Theorem addInstructions_rows (n : nat) (p : Form.Page) (l : list Form.Element) :
  Form.children p !! "instructionsContainer" = Some l →
  (Form.instructionCount p + N.of_nat n ≤ Form.max_count)%N →
  Form.addInstructions n p
  = {| Form.ingredientCount := Form.ingredientCount p;
       Form.instructionCount := Form.instructionCount p + N.of_nat n;
       Form.children :=
         <["instructionsContainer" :=
             l ++ ((λ i, Form.instruction_row
                           (Form.instructionCount p + N.of_nat i)) <$> seq 0 n)]>
           (Form.children p) |}.
Proof.
  revert p l. induction n as [|n IH]; intros p l Hc Hmax.
  - simpl. rewrite N.add_0_r, app_nil_r, insert_id by done. by destruct p.
  - simpl Form.addInstructions.
    rewrite (addInstruction_present p l Hc); simpl.
    rewrite (IH _ (l ++ [Form.instruction_row (Form.instructionCount p)]));
      simpl.
    + rewrite increment_below by lia. rewrite insert_insert_eq.
      f_equal; [lia|]. f_equal. rewrite <- (assoc_L (++)). f_equal.
      simpl. f_equal; [by rewrite N.add_0_r|].
      rewrite <- fmap_S_seq, <- list_fmap_compose.
      apply list_fmap_ext. intros _ i _. simpl. f_equal. lia.
    + by rewrite lookup_insert_eq.
    + rewrite increment_below by lia. lia.
Qed.

(** Two calls on a page with one instruction row already in the container
    and the counter at 2. *)
Lemma addInstructions_rows_witness :
  Form.children
    {| Form.ingredientCount := 1; Form.instructionCount := 2;
       Form.children :=
         {[ "instructionsContainer" := [Form.instruction_row 1] ]} |}
    !! "instructionsContainer" = Some [Form.instruction_row 1]
  ∧ Form.children
      (Form.addInstructions 2
         {| Form.ingredientCount := 1; Form.instructionCount := 2;
            Form.children :=
              {[ "instructionsContainer" := [Form.instruction_row 1] ]} |})
    !! "instructionsContainer"
    = Some [Form.instruction_row 1; Form.instruction_row 2;
            Form.instruction_row 3].
Proof.
  assert (Form.children
    {| Form.ingredientCount := 1; Form.instructionCount := 2;
       Form.children :=
         {[ "instructionsContainer" := [Form.instruction_row 1] ]} |}
    !! "instructionsContainer" = Some [Form.instruction_row 1]) as Hc by done.
  split; [exact Hc|].
  rewrite (addInstructions_rows 2 _ [Form.instruction_row 1] Hc); [|done].
  simpl. by rewrite lookup_insert_eq.
Defined.
